(** * GSL [not_null<T>]: a shallow embedding of include/gsl.h

    The header declares one class template with runtime behaviour,
    [gsl::not_null<T>], and the [std::hash] specialisation for it.  The
    embedding keeps the class as the one-field record it is, its member
    functions as state transformers over that record that either return
    or raise, and its constructors as functions that either produce an
    object or raise. *)

From Stdlib Require Import NArith Bool List.

Set Implicit Arguments.

(** ** Effects of a member function *)

(** The only exception the header can raise. *)
Inductive contract_error : Type :=
| PreconditionViolation.

Inductive outcome (A : Type) : Type :=
| Returns (a : A)
| Raises (e : contract_error).

Arguments Returns {A} a.
Arguments Raises {A} e.

(** A member function of a class whose objects have state [S]: it runs on
    [*this] and leaves the object in some state, whether it returns or
    raises.  Stack unwinding does not roll stores back. *)
Definition method (S A : Type) : Type := S -> outcome A * S.

Definition ret {S A : Type} (a : A) : method S A :=
  fun this => (Returns a, this).

Definition bind {S A B : Type} (m : method S A) (k : A -> method S B)
  : method S B :=
  fun this =>
    match m this with
    | (Returns a, this') => k a this'
    | (Raises e, this') => (Raises e, this')
    end.

Declare Scope method_scope.
Delimit Scope method_scope with method.
Notation "x <- m ;; k" := (bind m (fun x => k))
  (at level 61, m at next level, right associativity) : method_scope.
Notation "m ;; k" := (bind m (fun _ => k))
  (at level 61, right associativity) : method_scope.
Open Scope method_scope.

(** [return *this;] *)
Definition deref_this {S : Type} : method S S :=
  fun this => (Returns this, this).

(** The value of a call [obj.m()] used as an operand: what it returns or
    raises. *)
Definition eval {S A : Type} (m : method S A) (obj : S) : outcome A :=
  fst (m obj).

(** A call [other.m()] on a [const] object inside a member function of
    another object: [*this] is untouched. *)
Definition call_const {S O A : Type} (other : O) (m : method O A)
  : method S A :=
  fun this => (eval m other, this).

(** Sequencing of operands in an expression outside any object. *)
Definition obind {A B : Type} (o : outcome A) (k : A -> outcome B)
  : outcome B :=
  match o with
  | Returns a => k a
  | Raises e => Raises e
  end.

(** [m] on [obj] returns [a] (and does not raise). *)
Definition yields {S A : Type} (m : method S A) (obj : S) (a : A) : Prop :=
  eval m obj = Returns a.

(** An object under construction: the member initialisers give [mem_init],
    then the body runs.  If the body raises, construction does not complete
    and there is no object. *)
Definition constructed {S : Type} (mem_init : S) (body : method S unit)
  : outcome S :=
  match body mem_init with
  | (Returns _, this) => Returns this
  | (Raises e, _) => Raises e
  end.

(** Modelled from the spec: gsl_assert.h, which defines the [Expects] macro,
    is not among the sources.  Section 6: it evaluates the condition; if
    false it raises a PreconditionViolation that unwinds out of the wrapper;
    if true it returns with no observable effect. *)
Definition Expects {S : Type} (cond : bool) : method S unit :=
  fun this =>
    if cond then (Returns tt, this) else (Raises PreconditionViolation, this).

(** ** Handle types *)

(** What the class template asks of [T]: a null value ([static_assert] on
    [is_assignable<T&, nullptr_t>]), comparison with [==], and a
    [std::hash<T>] returning [size_t]. *)
Class Handle (T : Type) : Type := {
  nullptr : T;
  handle_eqb : T -> T -> bool;
  handle_eqb_eq : forall x y : T, handle_eqb x y = true <-> x = y;
  std_hash : T -> N
}.

(** [std::is_convertible<U, T>]: the implicit conversion itself. *)
Class Convertible (U T : Type) : Type :=
  convert : U -> T.

(** ** The class *)

(** [private: T ptr_;] is the only data member. *)
Record not_null (T : Type) : Type := Build_not_null { ptr_ : T }.

Section NotNull.
Context {T : Type} {HT : Handle T}.

(** I1: the wrapped handle is not null. *)
Definition I1 (w : not_null T) : Prop := ptr_ w <> nullptr.

Definition load_ptr_ : method (not_null T) T :=
  fun this => (Returns (ptr_ this), this).

Definition store_ptr_ (t : T) : method (not_null T) unit :=
  fun _ => (Returns tt, {| ptr_ := t |}).

(** [void ensure_invariant() const { Expects(ptr_ != nullptr); }] *)
Definition ensure_invariant : method (not_null T) unit :=
  p <- load_ptr_ ;; Expects (negb (handle_eqb p nullptr)).

(** [check_args<U...> arg_check;] declares a local object of an empty
    struct type: no code runs. *)
Definition arg_check : method (not_null T) unit := ret tt.

(** [template<class... U> not_null(U... args)
      : ptr_(std::forward<U>(args)...) { check_args<U...> arg_check; }]
    [init] is the initialisation of a [T] from the forwarded pack. *)
Definition not_null_forward {Args : Type} (init : Args -> T) (args : Args)
  : outcome (not_null T) :=
  constructed {| ptr_ := init args |} arg_check.

(** [not_null(T t) : ptr_(t) { ensure_invariant(); }] *)
Definition not_null_from_T (t : T) : outcome (not_null T) :=
  constructed {| ptr_ := t |} ensure_invariant.

(** [not_null& operator=(const T& t)
      { ptr_ = t; ensure_invariant(); return *this; }] *)
Definition assign_T (t : T) : method (not_null T) (not_null T) :=
  store_ptr_ t ;; ensure_invariant ;; deref_this.

(** [not_null(const not_null &other) = default;] *)
Definition not_null_copy (other : not_null T) : outcome (not_null T) :=
  constructed {| ptr_ := ptr_ other |} (ret tt).

(** [not_null& operator=(const not_null &other) = default;] *)
Definition assign_copy (other : not_null T)
  : method (not_null T) (not_null T) :=
  store_ptr_ (ptr_ other) ;; deref_this.

(** [T get() const { return ptr_; }]
    Under [_MSC_VER] the body also has [__assume(ptr_ != nullptr)], a hint
    to the optimiser that emits no code. *)
Definition get : method (not_null T) T := load_ptr_.

(** [operator T() const { return get(); }] *)
Definition operator_T : method (not_null T) T := get.

(** [T operator->() const { return get(); }] *)
Definition operator_arrow : method (not_null T) T := get.

(** [bool operator==(const T& rhs) const { return ptr_ == rhs; }] *)
Definition operator_eq (rhs : T) : method (not_null T) bool :=
  p <- load_ptr_ ;; ret (handle_eqb p rhs).

(** [bool operator!=(const T& rhs) const { return !( *this == rhs ); }] *)
Definition operator_ne (rhs : T) : method (not_null T) bool :=
  r <- operator_eq rhs ;; ret (negb r).

(** The expression [a == b] on two wrappers: the member [operator==] of
    [a], its argument [b] converted by [operator T]. *)
Definition eq_not_null (a b : not_null T) : outcome bool :=
  obind (eval operator_T b) (fun rhs => eval (operator_eq rhs) a).

(** [size_t operator()(const gsl::not_null<T> & value) const
      { return hash<T>{}(value); }]
    [value] reaches [hash<T>] through [operator T]. *)
Definition hash_not_null (value : not_null T) : outcome N :=
  obind (eval operator_T value) (fun t => Returns (std_hash t)).

End NotNull.

Section Converting.
Context {U T : Type} {HU : Handle U} {HT : Handle T}.
Context {UT : Convertible U T}.

(** [template <typename U, typename Dummy = ...>
    not_null& operator=(const not_null<U> &other)
      { ptr_ = other.get(); return *this; }] *)
Definition assign_not_null_U (other : not_null U)
  : method (not_null T) (not_null T) :=
  u <- call_const other get ;; store_ptr_ (convert u) ;; deref_this.

(** [template <typename U, typename Dummy = ...>
    not_null(const not_null<U> &other) { *this = other; }]
    There is no member initialiser: [ptr_] is default-initialised, to the
    value [indet], before the body assigns it. *)
Definition not_null_from_not_null_U (indet : T) (other : not_null U)
  : outcome (not_null T) :=
  constructed {| ptr_ := indet |} (assign_not_null_U other ;; ret tt).

End Converting.

(** ** Client code *)

Section Clients.
Context {T : Type} {HT : Handle T}.

(** The statements [w = t1; w = t2; ...] of a client that assigns handles
    to one wrapper [w] in turn, each through [operator=(const T&)]. *)
Fixpoint assign_each (ts : list T) : method (not_null T) unit :=
  match ts with
  | nil => ret tt
  | t :: ts' => assign_T t ;; assign_each ts'
  end.

End Clients.

(** ** Raw pointers to a small class hierarchy *)

Inductive class_name : Type := Base | Derived.

(** A raw pointer [C*]: an address, 0 for the null pointer. *)
Record pointer (C : class_name) : Type := Ptr { address : N }.

Arguments Ptr C address : clear implicits.

Definition pointer_eqb {C : class_name} (p q : pointer C) : bool :=
  N.eqb (address p) (address q).

#[export, refine] Instance pointer_Handle (C : class_name)
  : Handle (pointer C) := {
  nullptr := Ptr C 0;
  handle_eqb := pointer_eqb;
  std_hash := fun p => address p
}.
Proof.
  intros [a] [b]; unfold pointer_eqb; simpl.
  rewrite N.eqb_eq. split; intros E.
  - now subst.
  - now inversion E.
Defined.

(** [Derived*] to [Base*], with [Base] the first base of [Derived]: the
    address is kept, and null goes to null. *)
#[export] Instance Derived_to_Base
  : Convertible (pointer Derived) (pointer Base) :=
  fun p => Ptr Base (address p).

(** A [Base] object and a [Derived] object somewhere in memory. *)
Definition a_base : pointer Base := Ptr Base 4096.
Definition a_derived : pointer Derived := Ptr Derived 8192.

(** * Properties *)

(** ** Constructors and the check *)

Lemma constructed_returns {S : Type} (mem_init w : S) (body : method S unit) :
  constructed mem_init body = Returns w ->
  exists u, body mem_init = (Returns u, w).
Proof.
  unfold constructed. destruct (body mem_init) as [[u | e] s]; intros E.
  - exists u. now inversion E.
  - discriminate E.
Qed.

Section HandleFacts.
Context {T : Type} {HT : Handle T}.

Lemma handle_eqb_refl (x : T) : handle_eqb x x = true.
Proof. now apply handle_eqb_eq. Qed.

Lemma handle_eqb_neq (x y : T) : x <> y -> handle_eqb x y = false.
Proof.
  intros N. destruct (handle_eqb x y) eqn:E; [| reflexivity].
  apply handle_eqb_eq in E. contradiction.
Qed.

Lemma handle_eqb_false (x y : T) : handle_eqb x y = false -> x <> y.
Proof.
  intros E ->. rewrite handle_eqb_refl in E. discriminate E.
Qed.

(** [ensure_invariant] never changes the object; it returns on a non-null
    [ptr_] and raises on a null one. *)
Lemma ensure_invariant_nonnull (this : not_null T) :
  I1 this -> ensure_invariant this = (Returns tt, this).
Proof.
  intros H. unfold ensure_invariant, bind, load_ptr_, Expects.
  now rewrite (handle_eqb_neq H).
Qed.

Lemma ensure_invariant_null (this : not_null T) :
  ptr_ this = nullptr ->
  ensure_invariant this = (Raises PreconditionViolation, this).
Proof.
  intros H. unfold ensure_invariant, bind, load_ptr_, Expects.
  now rewrite H, handle_eqb_refl.
Qed.

Lemma ensure_invariant_returns (this this' : not_null T) (u : unit) :
  ensure_invariant this = (Returns u, this') -> this' = this /\ I1 this.
Proof.
  unfold ensure_invariant, bind, load_ptr_, Expects.
  destruct (handle_eqb (ptr_ this) nullptr) eqn:E; simpl; intros R.
  - discriminate R.
  - inversion R; subst. split; [reflexivity |]. now apply handle_eqb_false.
Qed.

End HandleFacts.

(** ** Construction and assignment from a handle *)

Section FromHandle.
Context {T : Type} {HT : Handle T}.

Lemma not_null_from_T_null :
  not_null_from_T (nullptr : T) = Raises PreconditionViolation.
Proof.
  unfold not_null_from_T, constructed.
  now rewrite ensure_invariant_null.
Qed.

Lemma not_null_from_T_nonnull (h : T) :
  h <> nullptr -> not_null_from_T h = Returns {| ptr_ := h |}.
Proof.
  intros H. unfold not_null_from_T, constructed.
  now rewrite ensure_invariant_nonnull.
Qed.

(** Whatever [not_null(T)] produces satisfies I1. *)
Lemma not_null_from_T_I1 (t : T) (w : not_null T) :
  not_null_from_T t = Returns w -> I1 w.
Proof.
  intros C. apply constructed_returns in C as [u E].
  now apply ensure_invariant_returns in E as [-> H].
Qed.

Lemma not_null_copy_I1 (other w : not_null T) :
  I1 other -> not_null_copy other = Returns w -> I1 w.
Proof.
  unfold not_null_copy, constructed, ret; simpl.
  intros H E. inversion E; subst. exact H.
Qed.

Lemma assign_copy_I1 (other this : not_null T) :
  I1 other ->
  exists w, assign_copy other this = (Returns w, w) /\ I1 w.
Proof.
  intros H. exists {| ptr_ := ptr_ other |}. split; [reflexivity | exact H].
Qed.

(** [operator=(const T&)] stores first and checks afterwards. *)
Lemma assign_T_nonnull (t : T) (this : not_null T) :
  t <> nullptr ->
  assign_T t this = (Returns {| ptr_ := t |}, {| ptr_ := t |}).
Proof.
  intros H. unfold assign_T, bind, store_ptr_.
  rewrite ensure_invariant_nonnull by exact H.
  reflexivity.
Qed.

Lemma assign_T_null (this : not_null T) :
  assign_T nullptr this
  = (Raises PreconditionViolation, {| ptr_ := nullptr |}).
Proof.
  unfold assign_T, bind, store_ptr_.
  rewrite ensure_invariant_null by reflexivity.
  reflexivity.
Qed.

(** An assignment that returns leaves I1 in place. *)
Lemma assign_T_returns_I1 (t : T) (this r w : not_null T) :
  assign_T t this = (Returns r, w) -> I1 w /\ ptr_ w = t.
Proof.
  destruct (handle_eqb t nullptr) eqn:E.
  - apply handle_eqb_eq in E; subst t.
    rewrite assign_T_null. discriminate.
  - apply handle_eqb_false in E.
    rewrite (assign_T_nonnull _ E). intros R; inversion R; subst.
    split; [exact E | reflexivity].
Qed.

(** The forwarding constructor runs no check at all: it returns an object
    holding whatever the pack initialises [ptr_] to. *)
Lemma not_null_forward_returns {Args : Type} (init : Args -> T) (args : Args) :
  not_null_forward init args = Returns {| ptr_ := init args |}.
Proof. reflexivity. Qed.

End FromHandle.

(** ** Access, equality and hashing *)

Section Access.
Context {T : Type} {HT : Handle T}.

(** C7: on every wrapper, so on every one that satisfies I1, [get()] returns
    the stored handle, does not raise and leaves the wrapper as it was;
    [operator T] and [operator->] are the same call. *)
Theorem get_pure_total (w : not_null T) :
  get w = (Returns (ptr_ w), w) /\
  operator_T w = get w /\
  operator_arrow w = get w.
Proof. repeat split. Qed.

Lemma get_yields (w : not_null T) : yields get w (ptr_ w).
Proof. reflexivity. Qed.

Lemma yields_get_inv (w : not_null T) (g : T) : yields get w g -> g = ptr_ w.
Proof. unfold yields, eval, get, load_ptr_; simpl. now intros [= ->]. Qed.

Lemma operator_eq_returns (rhs : T) (w : not_null T) :
  operator_eq rhs w = (Returns (handle_eqb (ptr_ w) rhs), w).
Proof. reflexivity. Qed.

Lemma operator_ne_returns (rhs : T) (w : not_null T) :
  operator_ne rhs w = (Returns (negb (handle_eqb (ptr_ w) rhs)), w).
Proof. reflexivity. Qed.

Lemma eq_not_null_returns (a b : not_null T) :
  eq_not_null a b = Returns (handle_eqb (ptr_ a) (ptr_ b)).
Proof. reflexivity. Qed.

Lemma hash_not_null_returns (value : not_null T) :
  hash_not_null value = Returns (std_hash (ptr_ value)).
Proof. reflexivity. Qed.

(** C5: with [ga] and [gb] what [a.get()] and [b.get()] return, [a == b]
    returns [ga == gb]; equal wrappers hash alike; and the hash of a wrapper
    is [hash<T>] of what [get()] returns. *)
Theorem equality_hash_consistency (a b : not_null T) (ga gb : T) :
  yields get a ga ->
  yields get b gb ->
  eq_not_null a b = Returns (handle_eqb ga gb) /\
  (eq_not_null a b = Returns true -> hash_not_null a = hash_not_null b) /\
  hash_not_null a = Returns (std_hash ga).
Proof.
  intros Ga Gb.
  apply yields_get_inv in Ga, Gb; subst ga gb.
  rewrite eq_not_null_returns, !hash_not_null_returns.
  repeat split.
  intros [= E]. apply handle_eqb_eq in E. now rewrite E.
Qed.

End Access.

(** Two wrappers over the same address compare equal and share a hash. *)
Lemma equality_hash_consistency_witness :
  yields get {| ptr_ := a_base |} a_base /\
  yields get {| ptr_ := Ptr Base 4096 |} a_base /\
  eq_not_null {| ptr_ := a_base |} {| ptr_ := Ptr Base 4096 |} = Returns true /\
  hash_not_null {| ptr_ := a_base |}
  = hash_not_null {| ptr_ := Ptr Base 4096 |} /\
  hash_not_null {| ptr_ := a_base |} = Returns 4096%N.
Proof.
  assert (Ga : yields get {| ptr_ := a_base |} a_base) by reflexivity.
  assert (Gb : yields get {| ptr_ := Ptr Base 4096 |} a_base) by reflexivity.
  destruct (equality_hash_consistency Ga Gb) as (E & H & K).
  split; [exact Ga |]. split; [exact Gb |]. split; [exact E |].
  split; [exact (H E) | exact K].
Defined.

(** ** Construction from a non-null handle *)

(** C4: from a non-null [h], [not_null(T)] returns a wrapper, and [get()] on
    it returns [h]. *)
Theorem construct_nonnull_get {T : Type} {HT : Handle T} (h : T) :
  h <> nullptr ->
  exists w : not_null T,
    not_null_from_T h = Returns w /\ get w = (Returns h, w).
Proof.
  intros H. exists {| ptr_ := h |}. split.
  - now apply not_null_from_T_nonnull.
  - reflexivity.
Qed.

Lemma construct_nonnull_get_witness :
  a_base <> nullptr /\
  exists w : not_null (pointer Base),
    not_null_from_T a_base = Returns w /\ get w = (Returns a_base, w).
Proof.
  assert (H : a_base <> nullptr) by (intros E; discriminate E).
  split; [exact H | exact (construct_nonnull_get H)].
Defined.

(** ** Conversion from a wrapper over a convertible handle *)

Section ConvertingFacts.
Context {U T : Type} {HU : Handle U} {HT : Handle T}.
Context {UT : Convertible U T}.

(** C10: the converting assignment and the converting constructor run no
    check: for every source wrapper they return, and the target holds the
    converted handle of the source, whatever [ptr_] held before. *)
Theorem conversion_unchecked (other : not_null U) (indet : T)
        (this : not_null T) :
  assign_not_null_U other this
  = (Returns {| ptr_ := convert (ptr_ other) |},
     {| ptr_ := convert (ptr_ other) |}) /\
  not_null_from_not_null_U indet other
  = Returns {| ptr_ := convert (ptr_ other) |}.
Proof. split; reflexivity. Qed.

(** C6: with [gu] what [other.get()] returns, the wrapper made from [other]
    by converting construction, and the one left by converting assignment,
    return [gu] converted to [T] from [get()]. *)
Theorem conversion_preserves_value (other : not_null U) (gu : U) (indet : T)
        (this : not_null T) :
  yields get other gu ->
  (exists w : not_null T,
      not_null_from_not_null_U indet other = Returns w /\
      yields get w (convert gu)) /\
  (exists w : not_null T,
      assign_not_null_U other this = (Returns w, w) /\
      yields get w (convert gu)).
Proof.
  intros G. apply yields_get_inv in G; subst gu.
  split; exists {| ptr_ := convert (ptr_ other) |}; split; reflexivity.
Qed.

(** Where the conversion keeps non-null handles non-null, as a pointer
    conversion does, both operations carry I1 from the source over. *)
Lemma conversion_I1 (other : not_null U) (indet : T) (this : not_null T) :
  (forall u : U, u <> nullptr -> convert u <> nullptr) ->
  I1 other ->
  I1 (snd (assign_not_null_U other this)) /\
  forall w, not_null_from_not_null_U indet other = Returns w -> I1 w.
Proof.
  intros K H. split.
  - apply K, H.
  - intros w [= <-]. apply K, H.
Qed.

End ConvertingFacts.

(** Scenario C: a wrapper over [Derived*] converted to one over [Base*]. *)
Lemma conversion_preserves_value_witness :
  yields get {| ptr_ := a_derived |} a_derived /\
  (exists w : not_null (pointer Base),
      not_null_from_not_null_U nullptr {| ptr_ := a_derived |} = Returns w /\
      yields get w (Ptr Base 8192)) /\
  (exists w : not_null (pointer Base),
      assign_not_null_U {| ptr_ := a_derived |} {| ptr_ := a_base |}
      = (Returns w, w) /\
      yields get w (Ptr Base 8192)).
Proof.
  assert (G : yields get {| ptr_ := a_derived |} a_derived) by reflexivity.
  split; [exact G |].
  exact (conversion_preserves_value (other := {| ptr_ := a_derived |})
           nullptr {| ptr_ := a_base |} G).
Defined.

(** ** Where the non-null guarantee is lost *)

(** C1: the forwarding constructor, which overload resolution picks for an
    argument of a convertible type such as [Derived*], takes a null pointer
    without raising and returns a wrapper that holds null. *)
Theorem forwarding_ctor_null_unchecked :
  not_null_forward (convert : pointer Derived -> pointer Base) nullptr
  = Returns {| ptr_ := nullptr |}.
Proof. reflexivity. Qed.

(** C2: I1 fails for the wrapper the forwarding constructor returns from a
    null [Derived*], and for a wrapper that satisfied I1 once a null handle
    has been assigned to it. *)
Theorem I1_not_preserved :
  (exists w : not_null (pointer Base),
      not_null_forward (convert : pointer Derived -> pointer Base) nullptr
      = Returns w /\ ~ I1 w) /\
  (I1 {| ptr_ := a_base |} /\
   ~ I1 (snd (assign_T nullptr {| ptr_ := a_base |}))).
Proof.
  split.
  - exists {| ptr_ := nullptr |}. split; [reflexivity |].
    intros H. now apply H.
  - split.
    + intros E. discriminate E.
    + rewrite assign_T_null. intros H. now apply H.
Qed.

(** C3: assigning a null handle to a wrapper over [a_base] raises
    PreconditionViolation after the store: the wrapper is left holding null,
    not [a_base]. *)
Theorem failed_assignment_overwrites :
  assign_T nullptr {| ptr_ := a_base |}
  = (Raises PreconditionViolation, {| ptr_ := nullptr |}) /\
  ({| ptr_ := nullptr |} : not_null (pointer Base)) <> {| ptr_ := a_base |}.
Proof.
  split.
  - apply assign_T_null.
  - intros E. discriminate E.
Qed.

(** ** The scenarios of the specification on raw pointers *)

(** Scenario A: wrapping a valid pointer gives that pointer back. *)
Example scenario_wrap_valid :
  obind (not_null_from_T a_base) (eval get) = Returns a_base.
Proof. reflexivity. Qed.

(** Scenario B: wrapping a null pointer of the wrapped type raises. *)
Example scenario_wrap_null :
  not_null_from_T (nullptr : pointer Base) = Raises PreconditionViolation.
Proof. reflexivity. Qed.

(** Scenario D: wrappers over equal pointers are equal and hash alike, and
    [!=] is the negation of [==]. *)
Example scenario_equal_keys :
  eq_not_null {| ptr_ := a_base |} {| ptr_ := Ptr Base 4096 |} = Returns true /\
  eval (operator_ne a_base) {| ptr_ := Ptr Base 4096 |} = Returns false /\
  eq_not_null {| ptr_ := a_base |} {| ptr_ := Ptr Base 4100 |} = Returns false.
Proof. repeat split. Qed.

(** A source wrapper that holds null, as a failed assignment leaves one,
    converts without a check into a target that holds null. *)
Example conversion_of_null_source :
  not_null_from_not_null_U (T := pointer Base) a_base
    (snd (assign_T nullptr {| ptr_ := a_derived |}))
  = Returns {| ptr_ := nullptr |}.
Proof. reflexivity. Qed.

(** * Further properties of the class *)

(** ** The check and the checked constructor *)

Section CheckedConstruction.
Context {T : Type} {HT : Handle T}.

(** X1: [not_null(T t)] raises PreconditionViolation exactly when [t] is
    null. *)
Theorem not_null_from_T_raises_iff (t : T) :
  not_null_from_T t = Raises PreconditionViolation <-> t = nullptr.
Proof.
  split.
  - intros R. destruct (handle_eqb t nullptr) eqn:E.
    + now apply handle_eqb_eq.
    + apply handle_eqb_false in E.
      rewrite (not_null_from_T_nonnull E) in R. discriminate R.
  - intros ->. apply not_null_from_T_null.
Qed.

(** X2: whenever [not_null(T t)] returns a wrapper, the wrapper satisfies I1
    and holds [t]. *)
Theorem not_null_from_T_establishes_I1 (t : T) (w : not_null T) :
  not_null_from_T t = Returns w -> I1 w /\ ptr_ w = t.
Proof.
  intros C. apply constructed_returns in C as [u E].
  apply ensure_invariant_returns in E as [-> H].
  split; [exact H | reflexivity].
Qed.

(** X3: [ensure_invariant()] never changes the wrapper; it returns exactly
    when [ptr_] is not null and raises PreconditionViolation exactly when it
    is null. *)
Theorem ensure_invariant_checks_only (this : not_null T) :
  snd (ensure_invariant this) = this /\
  (eval ensure_invariant this = Returns tt <-> I1 this) /\
  (eval ensure_invariant this = Raises PreconditionViolation
   <-> ptr_ this = nullptr).
Proof.
  unfold eval. destruct (handle_eqb (ptr_ this) nullptr) eqn:E.
  - apply handle_eqb_eq in E.
    rewrite (ensure_invariant_null _ E); simpl.
    split; [reflexivity |]. split; split; intros H.
    + discriminate H.
    + now elim H.
    + exact E.
    + reflexivity.
  - apply handle_eqb_false in E.
    rewrite (ensure_invariant_nonnull E); simpl.
    split; [reflexivity |]. split; split; intros H.
    + exact E.
    + reflexivity.
    + discriminate H.
    + now elim E.
Qed.

(** X4: wrapping again what [get()] returns on a wrapper that satisfies I1
    gives that same wrapper. *)
Theorem rewrap_get (w : not_null T) (g : T) :
  I1 w -> yields get w g -> not_null_from_T g = Returns w.
Proof.
  intros H G. apply yields_get_inv in G; subst g.
  rewrite (not_null_from_T_nonnull H). now destruct w.
Qed.

(** X5: on a pack that initialises a non-null handle, the forwarding
    constructor and [not_null(T)] build the same wrapper, and it satisfies
    I1. *)
Theorem forwarding_agrees_on_nonnull {Args : Type} (init : Args -> T)
        (args : Args) :
  init args <> nullptr ->
  not_null_forward init args = not_null_from_T (init args) /\
  not_null_forward init args = Returns {| ptr_ := init args |} /\
  I1 {| ptr_ := init args |}.
Proof.
  intros H. rewrite (not_null_from_T_nonnull H).
  split; [reflexivity |]. split; [reflexivity | exact H].
Qed.

End CheckedConstruction.

Lemma not_null_from_T_raises_iff_witness :
  (nullptr : pointer Base) = nullptr /\
  not_null_from_T (nullptr : pointer Base) = Raises PreconditionViolation.
Proof.
  split; [reflexivity |].
  exact (proj2 (not_null_from_T_raises_iff (nullptr : pointer Base)) eq_refl).
Defined.

Lemma not_null_from_T_establishes_I1_witness :
  not_null_from_T a_base = Returns {| ptr_ := a_base |} /\
  I1 {| ptr_ := a_base |} /\ ptr_ {| ptr_ := a_base |} = a_base.
Proof.
  assert (C : not_null_from_T a_base = Returns {| ptr_ := a_base |})
    by reflexivity.
  split; [exact C | exact (not_null_from_T_establishes_I1 a_base C)].
Defined.

Lemma ensure_invariant_checks_only_witness :
  I1 {| ptr_ := a_base |} /\
  eval ensure_invariant {| ptr_ := a_base |} = Returns tt /\
  ptr_ {| ptr_ := (nullptr : pointer Base) |} = nullptr /\
  eval ensure_invariant {| ptr_ := (nullptr : pointer Base) |}
  = Raises PreconditionViolation.
Proof.
  assert (H : I1 {| ptr_ := a_base |}) by (intros E; discriminate E).
  split; [exact H |]. split.
  - exact (proj2 (proj1 (proj2
             (ensure_invariant_checks_only {| ptr_ := a_base |}))) H).
  - split; [reflexivity |].
    exact (proj2 (proj2 (proj2
             (ensure_invariant_checks_only
                {| ptr_ := (nullptr : pointer Base) |}))) eq_refl).
Defined.

Lemma rewrap_get_witness :
  I1 {| ptr_ := a_base |} /\
  yields get {| ptr_ := a_base |} a_base /\
  not_null_from_T a_base = Returns {| ptr_ := a_base |}.
Proof.
  assert (H : I1 {| ptr_ := a_base |}) by (intros E; discriminate E).
  assert (G : yields get {| ptr_ := a_base |} a_base) by reflexivity.
  split; [exact H |]. split; [exact G | exact (rewrap_get H G)].
Defined.

Lemma forwarding_agrees_on_nonnull_witness :
  convert a_derived <> (nullptr : pointer Base) /\
  not_null_forward (convert : pointer Derived -> pointer Base) a_derived
  = not_null_from_T (convert a_derived) /\
  not_null_forward (convert : pointer Derived -> pointer Base) a_derived
  = Returns {| ptr_ := convert a_derived |} /\
  I1 {| ptr_ := (convert a_derived : pointer Base) |}.
Proof.
  assert (H : convert a_derived <> (nullptr : pointer Base))
    by (intros E; discriminate E).
  split; [exact H |].
  exact (forwarding_agrees_on_nonnull
           (convert : pointer Derived -> pointer Base) a_derived H).
Defined.

(** ** Assignment of handles *)

Lemma last_cons_default {A : Type} (l : list A) (a d : A) :
  last (a :: l) d = last l a.
Proof.
  revert a d. induction l as [| b l IH]; intros a d; [reflexivity |].
  change (last (a :: b :: l) d) with (last (b :: l) d).
  now rewrite (IH b d), (IH b a).
Qed.

Section HandleAssignment.
Context {T : Type} {HT : Handle T}.


(** X7: a run of assignments of non-null handles returns, and the wrapper
    then holds the last handle assigned (its old handle if there was no
    assignment). *)
Theorem assign_each_all_nonnull (ts : list T) (this : not_null T) :
  Forall (fun t => t <> nullptr) ts ->
  assign_each ts this = (Returns tt, {| ptr_ := last ts (ptr_ this) |}).
Proof.
  intros F. revert this.
  induction F as [| t ts' H F IH]; intros this.
  - now destruct this.
  - simpl assign_each. unfold bind.
    rewrite (assign_T_nonnull this H), IH.
    now rewrite last_cons_default.
Qed.

(** X8: a run of assignments stops at the first null handle: it raises
    PreconditionViolation, the wrapper holds null, and the handles after
    the null one are never stored. *)
Theorem assign_each_stops_at_null (pre post : list T) (this : not_null T) :
  Forall (fun t => t <> nullptr) pre ->
  assign_each (pre ++ nullptr :: post) this
  = (Raises PreconditionViolation, {| ptr_ := nullptr |}).
Proof.
  intros F. revert this.
  induction F as [| t pre' H F IH]; intros this.
  - simpl. unfold bind. now rewrite assign_T_null.
  - simpl. unfold bind. now rewrite (assign_T_nonnull this H), IH.
Qed.

(** X9: copy assignment from a wrapper that satisfies I1 is the same as
    assigning the handle it holds. *)
Theorem assign_copy_as_assign_T (other this : not_null T) :
  I1 other -> assign_copy other this = assign_T (ptr_ other) this.
Proof.
  intros H. now rewrite (assign_T_nonnull this H).
Qed.

End HandleAssignment.


Lemma assign_each_all_nonnull_witness :
  Forall (fun t : pointer Base => t <> nullptr) (Ptr Base 4100 :: a_base :: nil) /\
  assign_each (Ptr Base 4100 :: a_base :: nil) {| ptr_ := Ptr Base 16 |}
  = (Returns tt, {| ptr_ := a_base |}).
Proof.
  assert (F : Forall (fun t : pointer Base => t <> nullptr)
                     (Ptr Base 4100 :: a_base :: nil)).
  { repeat constructor; intros E; discriminate E. }
  split; [exact F |].
  exact (assign_each_all_nonnull {| ptr_ := Ptr Base 16 |} F).
Defined.

Lemma assign_each_stops_at_null_witness :
  Forall (fun t : pointer Base => t <> nullptr) (a_base :: nil) /\
  assign_each (a_base :: nullptr :: Ptr Base 4100 :: nil)
              {| ptr_ := Ptr Base 16 |}
  = (Raises PreconditionViolation, {| ptr_ := nullptr |}).
Proof.
  assert (F : Forall (fun t : pointer Base => t <> nullptr) (a_base :: nil)).
  { repeat constructor; intros E; discriminate E. }
  split; [exact F |].
  exact (assign_each_stops_at_null (Ptr Base 4100 :: nil)
           {| ptr_ := Ptr Base 16 |} F).
Defined.

Lemma assign_copy_as_assign_T_witness :
  I1 {| ptr_ := a_base |} /\
  assign_copy {| ptr_ := a_base |} {| ptr_ := Ptr Base 16 |}
  = assign_T a_base {| ptr_ := Ptr Base 16 |}.
Proof.
  assert (H : I1 {| ptr_ := a_base |}) by (intros E; discriminate E).
  split; [exact H |].
  exact (assign_copy_as_assign_T {| ptr_ := Ptr Base 16 |} H).
Defined.

(** ** Comparison, copies and hashing *)

Section Comparison.
Context {T : Type} {HT : Handle T}.

(** X10: [==] on wrappers is an equivalence: every wrapper equals itself,
    [a == b] and [b == a] return the same, and equality carries over from
    [a == b] and [b == c] to [a == c]. *)
Theorem eq_not_null_equivalence (a b c : not_null T) :
  eq_not_null a a = Returns true /\
  eq_not_null a b = eq_not_null b a /\
  (eq_not_null a b = Returns true ->
   eq_not_null b c = Returns true ->
   eq_not_null a c = Returns true).
Proof.
  rewrite !eq_not_null_returns. split; [| split].
  - now rewrite handle_eqb_refl.
  - f_equal. destruct (handle_eqb (ptr_ b) (ptr_ a)) eqn:E.
    + apply handle_eqb_eq in E. rewrite E. apply handle_eqb_refl.
    + apply handle_eqb_neq. intros K. apply handle_eqb_false in E.
      now apply E.
  - intros [= Eab] [= Ebc]. apply handle_eqb_eq in Eab, Ebc.
    rewrite Eab, Ebc. now rewrite handle_eqb_refl.
Qed.

(** X11: against a raw handle, [!=] returns the negation of what [==]
    returns, [==] returns true exactly when the wrapper holds that handle,
    and neither changes the wrapper nor raises. *)
Theorem operator_ne_complements_eq (rhs : T) (w : not_null T) :
  exists b : bool,
    operator_eq rhs w = (Returns b, w) /\
    operator_ne rhs w = (Returns (negb b), w) /\
    (b = true <-> ptr_ w = rhs).
Proof.
  exists (handle_eqb (ptr_ w) rhs).
  split; [reflexivity |]. split; [reflexivity |]. apply handle_eqb_eq.
Qed.

(** X12: a wrapper compares equal to the handle its own [get()] returns. *)
Theorem equals_own_get (w : not_null T) (g : T) :
  yields get w g -> operator_eq g w = (Returns true, w).
Proof.
  intros G. apply yields_get_inv in G; subst g.
  rewrite operator_eq_returns. now rewrite handle_eqb_refl.
Qed.

(** X13: the copy constructor never raises; the copy compares equal to its
    source, hashes like it, returns the same handle from [get()], and
    satisfies I1 when the source does. *)
Theorem copy_equal_to_source (other : not_null T) :
  exists w : not_null T,
    not_null_copy other = Returns w /\
    eq_not_null w other = Returns true /\
    hash_not_null w = hash_not_null other /\
    get w = (Returns (ptr_ other), w) /\
    (I1 other -> I1 w).
Proof.
  exists {| ptr_ := ptr_ other |}.
  split; [reflexivity |]. split.
  - rewrite eq_not_null_returns; simpl. now rewrite handle_eqb_refl.
  - split; [reflexivity |]. split; [reflexivity |]. intros H; exact H.
Qed.

(** X14: copy assignment never raises; afterwards the target compares equal
    to the source and hashes like it. *)
Theorem assign_copy_equal_to_source (other this : not_null T) :
  exists w : not_null T,
    assign_copy other this = (Returns w, w) /\
    eq_not_null w other = Returns true /\
    hash_not_null w = hash_not_null other.
Proof.
  exists {| ptr_ := ptr_ other |}.
  split; [reflexivity |]. split; [| reflexivity].
  rewrite eq_not_null_returns; simpl. now rewrite handle_eqb_refl.
Qed.

End Comparison.

Lemma eq_not_null_equivalence_witness :
  eq_not_null {| ptr_ := a_base |} {| ptr_ := Ptr Base 4096 |} = Returns true /\
  eq_not_null {| ptr_ := Ptr Base 4096 |} {| ptr_ := a_base |} = Returns true /\
  eq_not_null {| ptr_ := a_base |} {| ptr_ := a_base |} = Returns true.
Proof.
  assert (E1 : eq_not_null {| ptr_ := a_base |} {| ptr_ := Ptr Base 4096 |}
               = Returns true) by reflexivity.
  assert (E2 : eq_not_null {| ptr_ := Ptr Base 4096 |} {| ptr_ := a_base |}
               = Returns true) by reflexivity.
  split; [exact E1 |]. split; [exact E2 |].
  exact (proj2 (proj2 (eq_not_null_equivalence
                         {| ptr_ := a_base |} {| ptr_ := Ptr Base 4096 |}
                         {| ptr_ := a_base |})) E1 E2).
Defined.

Lemma operator_ne_complements_eq_witness :
  exists b : bool,
    operator_eq a_base {| ptr_ := Ptr Base 4100 |}
    = (Returns b, {| ptr_ := Ptr Base 4100 |}) /\
    operator_ne a_base {| ptr_ := Ptr Base 4100 |}
    = (Returns (negb b), {| ptr_ := Ptr Base 4100 |}) /\
    b <> true.
Proof.
  destruct (operator_ne_complements_eq a_base {| ptr_ := Ptr Base 4100 |})
    as (b & E & N & I).
  exists b. split; [exact E |]. split; [exact N |].
  intros B. apply I in B. discriminate B.
Defined.

Lemma equals_own_get_witness :
  yields get {| ptr_ := a_base |} a_base /\
  operator_eq a_base {| ptr_ := a_base |}
  = (Returns true, {| ptr_ := a_base |}).
Proof.
  assert (G : yields get {| ptr_ := a_base |} a_base) by reflexivity.
  split; [exact G | exact (equals_own_get G)].
Defined.

Lemma copy_equal_to_source_witness :
  I1 {| ptr_ := a_base |} /\
  exists w : not_null (pointer Base),
    not_null_copy {| ptr_ := a_base |} = Returns w /\
    eq_not_null w {| ptr_ := a_base |} = Returns true /\
    I1 w.
Proof.
  assert (H : I1 {| ptr_ := a_base |}) by (intros E; discriminate E).
  split; [exact H |].
  destruct (copy_equal_to_source {| ptr_ := a_base |})
    as (w & C & E & _ & _ & K).
  exists w. split; [exact C |]. split; [exact E | exact (K H)].
Defined.

(** ** Covariant conversion *)

Section Covariance.
Context {U T : Type} {HU : Handle U} {HT : Handle T}.
Context {UT : Convertible U T}.

(** X15: where the conversion from [U] to [T] keeps non-null handles
    non-null, converting construction and converting assignment from a
    wrapper that satisfies I1 give a wrapper that satisfies I1. *)
Theorem conversion_keeps_I1 (other : not_null U) (indet : T)
        (this : not_null T) :
  (forall u : U, u <> nullptr -> convert u <> nullptr) ->
  I1 other ->
  (exists w, not_null_from_not_null_U indet other = Returns w /\ I1 w) /\
  (exists w, assign_not_null_U other this = (Returns w, w) /\ I1 w).
Proof.
  intros K H.
  split; exists {| ptr_ := convert (ptr_ other) |};
    (split; [reflexivity | apply K, H]).
Qed.

(** X16: when the converted handle of the source is not null, converting
    assignment does what assigning that handle does, and converting
    construction builds what [not_null(T)] builds from it. *)
Theorem conversion_as_handle_paths (other : not_null U) (indet : T)
        (this : not_null T) :
  convert (ptr_ other) <> nullptr ->
  assign_not_null_U other this = assign_T (convert (ptr_ other)) this /\
  not_null_from_not_null_U indet other
  = not_null_from_T (convert (ptr_ other)).
Proof.
  intros H.
  rewrite (assign_T_nonnull this H), (not_null_from_T_nonnull H).
  split; reflexivity.
Qed.

(** X17: when the converted handle of the source is null, the two paths
    part: the converting constructor returns a wrapper holding null where
    [not_null(T)] raises, and converting assignment returns where
    assignment of the handle raises. *)
Theorem conversion_of_null_diverges (other : not_null U) (indet : T)
        (this : not_null T) :
  convert (ptr_ other) = nullptr ->
  not_null_from_not_null_U indet other = Returns {| ptr_ := nullptr |} /\
  not_null_from_T (convert (ptr_ other)) = Raises PreconditionViolation /\
  assign_not_null_U other this
  = (Returns {| ptr_ := nullptr |}, {| ptr_ := nullptr |}) /\
  assign_T (convert (ptr_ other)) this
  = (Raises PreconditionViolation, {| ptr_ := nullptr |}).
Proof.
  intros H.
  unfold not_null_from_not_null_U, assign_not_null_U, constructed, bind,
    call_const, eval, get, load_ptr_, store_ptr_, deref_this, ret; simpl.
  rewrite H, not_null_from_T_null, assign_T_null.
  repeat split.
Qed.

End Covariance.

Lemma conversion_keeps_I1_witness :
  (forall u : pointer Derived,
      u <> nullptr -> (convert u : pointer Base) <> nullptr) /\
  I1 {| ptr_ := a_derived |} /\
  (exists w : not_null (pointer Base),
      not_null_from_not_null_U nullptr {| ptr_ := a_derived |} = Returns w /\
      I1 w) /\
  (exists w : not_null (pointer Base),
      assign_not_null_U {| ptr_ := a_derived |} {| ptr_ := a_base |}
      = (Returns w, w) /\ I1 w).
Proof.
  assert (K : forall u : pointer Derived,
             u <> nullptr -> (convert u : pointer Base) <> nullptr).
  { intros [a] N E. apply N. unfold convert, Derived_to_Base in E.
    simpl in E. injection E as ->. reflexivity. }
  assert (H : I1 {| ptr_ := a_derived |}) by (intros E; discriminate E).
  split; [exact K |]. split; [exact H |].
  exact (conversion_keeps_I1 nullptr {| ptr_ := a_base |} K H).
Defined.

Lemma conversion_as_handle_paths_witness :
  convert (ptr_ {| ptr_ := a_derived |}) <> (nullptr : pointer Base) /\
  assign_not_null_U {| ptr_ := a_derived |} {| ptr_ := a_base |}
  = assign_T (convert a_derived) {| ptr_ := a_base |} /\
  not_null_from_not_null_U (nullptr : pointer Base) {| ptr_ := a_derived |}
  = not_null_from_T (convert a_derived).
Proof.
  assert (H : convert (ptr_ {| ptr_ := a_derived |})
              <> (nullptr : pointer Base)) by (intros E; discriminate E).
  split; [exact H |].
  exact (conversion_as_handle_paths {| ptr_ := a_derived |}
           nullptr {| ptr_ := a_base |} H).
Defined.

Lemma conversion_of_null_diverges_witness :
  convert (ptr_ {| ptr_ := (nullptr : pointer Derived) |})
  = (nullptr : pointer Base) /\
  not_null_from_not_null_U a_base {| ptr_ := (nullptr : pointer Derived) |}
  = Returns {| ptr_ := nullptr |} /\
  not_null_from_T (nullptr : pointer Base) = Raises PreconditionViolation.
Proof.
  assert (H : convert (ptr_ {| ptr_ := (nullptr : pointer Derived) |})
              = (nullptr : pointer Base)) by reflexivity.
  destruct (conversion_of_null_diverges
              {| ptr_ := (nullptr : pointer Derived) |}
              a_base {| ptr_ := a_base |} H) as (C & R & _).
  split; [exact H |]. split; [exact C | exact R].
Defined.
